(** * DatasetMaker: band aggregation and sound-signature labelling

    A shallow embedding of [DatasetMaker.py], the script that sorts
    frequency-response measurements (one CSV per earphone) into the four
    folders [Neutral], [Bright], [V-shape] and [Warm].

    Modelling conventions.
    - Numbers.  The script works on the numbers pandas parses out of the
      CSV cells, IEEE-754 doubles.  Two embeddings are given.  The first
      has exact rationals ([Qc], canonical fractions, so that Leibniz
      equality is numeric equality): it is the script with rounding,
      infinities and NaN left out, and serves for everything that does
      not turn on rounding: masks, definedness, the combiner, the decision
      table, paths.  The second, module [F64], is the same pipeline on
      binary64 floats with numpy's order of summation; it is used where
      the two differ.
    - Arrays.  A numpy array is a [list Qc] (a [list float] in [F64]); a
      boolean mask is a [list bool].
    - Dictionaries.  [bands] is iterated in insertion order and is an
      association list; [band_means] is only ever indexed by key and is a
      [gmap string (option Qc)], the inner [option] being Python's [None].
    - Strings are [string]s of 8-bit characters.
    - Effects.  The two writes of an iteration ([plt.savefig] and
      [shutil.copy2]) are recorded as a list of [effect]s; the picture is
      represented by the data handed to [ax.plot].
    - The loader.  [pd.read_csv] is a parameter.  [process_file] is the
      body of the loop for a loader that yields a table for every path;
      [iteration] and [run] take a loader that may raise, as the call at
      line 42 may, and record whether the script reached the end of the
      listing. *)

From Stdlib Require Import QArith Qcanon Ascii Floats Uint63.
From stdpp Require Import gmap strings list fin_maps numbers.

Local Open Scope Qc_scope.

(** ** Python built-ins used by the script *)

Module Py.

(** [str.lower] on one character: [A]..[Z] are shifted by 32. *)
Definition lower_ascii (c : ascii) : ascii :=
  let n := nat_of_ascii c in
  if (65 <=? n)%nat && (n <=? 90)%nat then ascii_of_nat (n + 32) else c.

(** [s.lower()] *)
Fixpoint lower (s : string) : string :=
  match s with
  | EmptyString => EmptyString
  | String c r => String (lower_ascii c) (lower r)
  end.

(** [s.endswith(suffix)]: the last [len(suffix)] characters of [s] are
    [suffix]. *)
Definition endswith (s suffix : string) : bool :=
  let n := String.length s in
  let k := String.length suffix in
  (k <=? n)%nat && String.eqb (String.substring (n - k) k s) suffix.

(** [s.startswith(prefix)] *)
Definition startswith (s prefix : string) : bool := String.prefix prefix s.

(** [s.rfind(c)] for a one-character [c]: the index of the last
    occurrence, or [-1].  [i] is the index of the head of [s]. *)
Fixpoint rfind_from (c : ascii) (s : string) (i : Z) : Z :=
  match s with
  | EmptyString => (-1)%Z
  | String a r =>
      let j := rfind_from c r (i + 1) in
      if (0 <=? j)%Z then j else if Ascii.eqb a c then i else (-1)%Z
  end.
Definition rfind (s : string) (c : ascii) : Z := rfind_from c s 0.

(** The slice [s[i:j]] for [0 <= i]. *)
Definition slice (s : string) (i j : Z) : string :=
  String.substring (Z.to_nat i) (Z.to_nat (j - i)) s.

(** Some character of [s] differs from [c]. *)
Fixpoint some_other (c : ascii) (s : string) : bool :=
  match s with
  | EmptyString => false
  | String a r => negb (Ascii.eqb a c) || some_other c r
  end.

(** [os.path.splitext(p)] (posixpath, via [genericpath._splitext]): the
    extension starts at the last dot, provided that dot comes after the
    last separator and is preceded, within the file name, by a character
    that is not a dot. *)
Definition splitext (p : string) : string * string :=
  let sepIndex := rfind p "/"%char in
  let dotIndex := rfind p "."%char in
  if (sepIndex <? dotIndex)%Z
     && some_other "."%char (slice p (sepIndex + 1) dotIndex)
  then (slice p 0 dotIndex, slice p dotIndex (Z.of_nat (String.length p)))
  else (p, EmptyString).

(** One step of [os.path.join] (posixpath): an absolute component
    restarts the path, otherwise it is appended after exactly one
    separator. *)
Definition join2 (path b : string) : string :=
  if startswith b "/" then b
  else if String.eqb path "" || endswith path "/" then path +:+ b
  else path +:+ "/" +:+ b.

(** [os.path.join(a, *p)] *)
Definition path_join (a : string) (p : list string) : string :=
  foldl join2 a p.

End Py.

(** ** numpy operations used by the script *)

Module Np.

(** [np.sum] *)
Fixpoint sum (a : list Qc) : Qc :=
  match a with
  | [] => 0
  | x :: r => x + sum r
  end.

(** The number of items of an array, as a number. *)
Definition count (a : list Qc) : Qc := Qc_of_Z (Z.of_nat (length a)).

(** [np.mean]: the sum over the number of items.  On the empty array
    numpy answers NaN; here the quotient by zero is [0].  The script
    only ever subtracts that value from the items of the same (empty)
    array, so it is never observed. *)
Definition mean (a : list Qc) : Qc := sum a / count a.

(** [a - c] for an array [a] and a scalar [c] (broadcasting) *)
Definition sub_scalar (a : list Qc) (c : Qc) : list Qc :=
  map (fun x => x - c) a.

(** [a >= c] and [a < c], elementwise *)
Definition ge_scalar (a : list Qc) (c : Qc) : list bool :=
  map (fun x => bool_decide (c ≤ x)) a.
Definition lt_scalar (a : list Qc) (c : Qc) : list bool :=
  map (fun x => bool_decide (x < c)) a.

(** [m1 & m2], elementwise *)
Fixpoint and_ (m1 m2 : list bool) : list bool :=
  match m1, m2 with
  | b1 :: r1, b2 :: r2 => (b1 && b2) :: and_ r1 r2
  | _, _ => []
  end.

(** [np.any] *)
Definition any (m : list bool) : bool := existsb id m.

(** Boolean indexing [a[m]]: the items of [a] at which [m] is true.
    numpy requires both to have the same length, which holds wherever
    the script indexes. *)
Fixpoint select (a : list Qc) (m : list bool) : list Qc :=
  match a, m with
  | x :: r, b :: s => if b then x :: select r s else select r s
  | _, _ => []
  end.

End Np.

(** ** The script *)

(** A parsed table ([pd.DataFrame]): its columns in file order, each with
    one cell per data row.  pandas gives all columns the same length. *)
Record DataFrame := { columns : list (list Qc) }.

(** [df.shape[1]] *)
Definition shape1 (df : DataFrame) : nat := length (columns df).

(** [df[df.columns[i]].to_numpy()] *)
Definition column (df : DataFrame) (i : nat) : list Qc :=
  nth i (columns df) [].

(** All columns of a table have the same number of rows. *)
Definition well_formed (df : DataFrame) : Prop :=
  ∀ c1 c2, c1 ∈ columns df → c2 ∈ columns df → length c1 = length c2.

(** What one iteration writes. *)
Inductive effect :=
  | savefig (img_path : string) (xs ys : list Qc)
  | copy2 (src dst : string).

(** Input and output directories (lines 10-12) *)
Definition input_dir : string := "SuperInEar".
Definition output_img_dir : string := "dataset5/images".
Definition output_csv_dir : string := "dataset5/csvs".

(** Sound signature classes (line 15) *)
Definition classes : list string := ["Neutral"; "Bright"; "V-shape"; "Warm"].

(** Frequency bands in Hz (lines 23-31), in insertion order *)
Definition bands : list (string * (Qc * Qc)) :=
  [ ("sub_bass",   (Qc_of_Z 20,   Qc_of_Z 60));
    ("mid_bass",   (Qc_of_Z 60,   Qc_of_Z 250));
    ("low_mids",   (Qc_of_Z 250,  Qc_of_Z 500));
    ("mids",       (Qc_of_Z 500,  Qc_of_Z 2000));
    ("upper_mids", (Qc_of_Z 2000, Qc_of_Z 4000));
    ("presence",   (Qc_of_Z 4000, Qc_of_Z 6000));
    ("brilliance", (Qc_of_Z 6000, Qc_of_Z 12000)) ].

(** Threshold in dB for significant emphasis (line 34) *)
Definition threshold : Qc := Qc_of_Z 3.

(** [spl_norm = spl - np.mean(spl)] (line 48) *)
Definition spl_norm (spl : list Qc) : list Qc :=
  Np.sub_scalar spl (Np.mean spl).

(** [mask = (freqs >= low) & (freqs < high)] (line 53) *)
Definition mask (low high : Qc) (freqs : list Qc) : list bool :=
  Np.and_ (Np.ge_scalar freqs low) (Np.lt_scalar freqs high).

(** The value stored for one band (lines 53-57): the mean of the selected
    levels, or [None] when the mask selects nothing. *)
Definition band_mean (low high : Qc) (freqs levels : list Qc) : option Qc :=
  let mask := mask low high freqs in
  if Np.any mask then Some (Np.mean (Np.select levels mask)) else None.

(** The loop over [bands.items()] filling the dictionary [band_means]
    (lines 50-57). *)
Definition band_means (freqs levels : list Qc) : gmap string (option Qc) :=
  foldl (fun bm '(band, (low, high)) =>
           <[band := band_mean low high freqs levels]> bm)
        ∅ bands.

(** [d[key]] on a dictionary of optional numbers.  The script only uses
    the seven keys that the loop above has inserted. *)
Definition getitem (d : gmap string (option Qc)) (key : string) : option Qc :=
  d !!! key.

(** [x is not None] *)
Definition is_not_None (x : option Qc) : bool :=
  match x with Some _ => true | None => false end.

(** Bass = average of sub_bass and mid_bass; if one is missing, the one
    present (or [None]) (lines 61-65). *)
Definition bass_avg (band_means : gmap string (option Qc)) : option Qc :=
  match getitem band_means "sub_bass", getitem band_means "mid_bass" with
  | Some sb, Some mb => Some ((sb + mb) / Qc_of_Z 2)
  | sb, mb => if is_not_None sb then sb else mb
  end.

(** [ [m for m in mid_values if m is not None] ] (lines 68-69) *)
Definition mid_values (band_means : gmap string (option Qc)) : list Qc :=
  omap id [ getitem band_means "low_mids";
            getitem band_means "mids";
            getitem band_means "upper_mids" ].

(** Mid = average of the defined ones among low_mids, mids, upper_mids:
    [np.mean(mid_values) if mid_values else None] (line 70). *)
Definition mid_avg (band_means : gmap string (option Qc)) : option Qc :=
  match mid_values band_means with
  | [] => None
  | vs => Some (Np.mean vs)
  end.

(** Treble = average of presence and brilliance, as for Bass
    (lines 73-76). *)
Definition treble_avg (band_means : gmap string (option Qc)) : option Qc :=
  match getitem band_means "presence", getitem band_means "brilliance" with
  | Some p, Some b => Some ((p + b) / Qc_of_Z 2)
  | p, b => if is_not_None p then p else b
  end.

(** The guard of the classification (line 80) and the two differences
    computed under it (lines 82-83): [(bass_diff, treble_diff)] when all
    three regions are defined, nothing otherwise. *)
Definition diffs (bass_avg mid_avg treble_avg : option Qc) : option (Qc * Qc) :=
  match bass_avg, mid_avg, treble_avg with
  | Some b, Some m, Some t => Some (b - m, t - m)
  | _, _, _ => None
  end.

(** The cascade of classification rules (lines 85-92).  The script reads
    the global [threshold]; here it is an argument, so that statements can
    range over it. *)
Definition rules (threshold bass_diff treble_diff : Qc) : string :=
  if bool_decide (threshold ≤ bass_diff) && bool_decide (threshold ≤ treble_diff)
  then "V-shape"
  else if bool_decide (threshold ≤ treble_diff) && bool_decide (bass_diff < threshold)
  then "Bright"
  else if bool_decide (threshold ≤ bass_diff) && bool_decide (treble_diff < threshold)
  then "Warm"
  else "Neutral".

(** The label of three region averages (lines 79-92): [Neutral] by
    default, the outcome of the rules when the guard passes. *)
Definition label (threshold : Qc) (bass_avg mid_avg treble_avg : option Qc)
  : string :=
  match diffs bass_avg mid_avg treble_avg with
  | Some (bass_diff, treble_diff) => rules threshold bass_diff treble_diff
  | None => "Neutral"
  end.

(** The label the script gives to a curve (lines 48-92): normalise,
    aggregate, combine, classify, with the configured threshold. *)
Definition label_of_curve (freqs spl : list Qc) : string :=
  let band_means := band_means freqs (spl_norm spl) in
  label threshold (bass_avg band_means) (mid_avg band_means)
        (treble_avg band_means).

Section Loop.

(** [pd.read_csv], from a path to the parsed table, for a directory in
    which every CSV file parses. *)
Variable read_csv : string → DataFrame.

(** The body of the loop for one directory entry (lines 38-118): the two
    filters, the label, then the picture and the copy. *)
Definition process_file (filename : string) : list effect :=
  if negb (Py.endswith (Py.lower filename) ".csv") then []
  else
    let filepath := Py.path_join input_dir [filename] in
    let df := read_csv filepath in
    if (shape1 df <? 2)%nat then []
    else
      let freqs := column df 0 in
      let spl := column df 1 in
      let spl_norm := spl_norm spl in
      let label := label_of_curve freqs spl in
      let base_name := (Py.splitext filename).1 in
      let img_path :=
        Py.path_join output_img_dir [label; base_name +:+ ".png"] in
      let csv_dest := Py.path_join output_csv_dir [label; filename] in
      [savefig img_path freqs spl_norm; copy2 filepath csv_dest].

(** [for filename in os.listdir(input_dir): ...] (line 37), on the
    listing of the input directory, when no load raises. *)
Definition main (listing : list string) : list effect :=
  flat_map process_file listing.

End Loop.

Section Run.

(** [pd.read_csv] as line 42 calls it, outside any [try]: the parsed
    table, or [None] when the call raises, as pandas does on an empty file
    or on one it cannot decode or tokenize.  The script has no handler
    anywhere, so the exception leaves the loop. *)
Variable load : string → option DataFrame.

(** One iteration of the loop (lines 38-118): the writes it makes when it
    ends normally, by [continue] or after the copy, and [None] when the
    load raises. *)
Definition iteration (filename : string) : option (list effect) :=
  if negb (Py.endswith (Py.lower filename) ".csv") then Some []
  else
    let filepath := Py.path_join input_dir [filename] in
    match load filepath with
    | None => None
    | Some df =>
        if (shape1 df <? 2)%nat then Some []
        else
          let freqs := column df 0 in
          let spl := column df 1 in
          let spl_norm := spl_norm spl in
          let label := label_of_curve freqs spl in
          let base_name := (Py.splitext filename).1 in
          let img_path :=
            Py.path_join output_img_dir [label; base_name +:+ ".png"] in
          let csv_dest := Py.path_join output_csv_dir [label; filename] in
          Some [savefig img_path freqs spl_norm; copy2 filepath csv_dest]
    end.

(** The run of the loop over a listing (line 37): the writes made, and
    whether the end of the listing was reached ([true]) or an exception
    ended the script ([false]); nothing catches it, so the entries after
    the one that raised are never looked at. *)
Fixpoint run (listing : list string) : list effect * bool :=
  match listing with
  | [] => ([], true)
  | filename :: rest =>
      match iteration filename with
      | None => ([], false)
      | Some writes =>
          let '(more, completed) := run rest in (writes ++ more, completed)
      end
  end.

End Run.

(** ** The same pipeline on binary64 *)

(** Lines 45-92 once more, on the numbers the script computes with:
    IEEE-754 binary64 values, every operation rounded to nearest even.
    The definitions follow the ones above name by name; only the numbers
    and [np.sum] change.  The two columns are taken as [float64] arrays,
    as pandas makes them of numeric cells with a decimal point. *)
Module F64.

(** The number of items of an array, as a float. *)
Definition count (a : list float) : float :=
  PrimFloat.of_uint63 (Uint63.of_Z (Z.of_nat (length a))).

(** One pass of numpy's unrolled loop: item number [i] of the pass goes to
    accumulator [i mod 8]. *)
Definition accumulate (r : list float) (i : nat) (x : float) : list float :=
  <[i mod 8 := PrimFloat.add (nth (i mod 8) r 0%float) x]> r.

Fixpoint accumulate_from (r : list float) (i : nat) (a : list float)
  : list float :=
  match a with
  | [] => r
  | x :: rest => accumulate_from (accumulate r i x) (S i) rest
  end.

(** The sum of a block of 8 to 128 items: eight accumulators over the full
    groups of eight, combined pairwise, then the remaining items one by
    one. *)
Definition block_sum (a : list float) : float :=
  let n := length a in
  let full := (n - n mod 8)%nat in
  let r := accumulate_from (take 8 a) 0 (take (full - 8) (drop 8 a)) in
  let res :=
    PrimFloat.add
      (PrimFloat.add (PrimFloat.add (nth 0 r 0%float) (nth 1 r 0%float))
                     (PrimFloat.add (nth 2 r 0%float) (nth 3 r 0%float)))
      (PrimFloat.add (PrimFloat.add (nth 4 r 0%float) (nth 5 r 0%float))
                     (PrimFloat.add (nth 6 r 0%float) (nth 7 r 0%float))) in
  foldl PrimFloat.add res (drop full a).

(** numpy's pairwise summation ([np.add.reduce] on a contiguous float64
    array): fewer than 8 items are added one by one from [-0.0], up to 128
    items by [block_sum], more by halves.  [fuel] bounds the depth of the
    halving; the length of the array is always enough.  (Older numpy
    versions start from [0.0]; the two differ in the sign of a zero sum
    only, which no comparison of the script sees.) *)
Fixpoint pairwise_sum (fuel : nat) (a : list float) : float :=
  let n := length a in
  if (n <? 8)%nat then foldl PrimFloat.add (-0)%float a
  else if (n <=? 128)%nat then block_sum a
  else
    match fuel with
    | O => block_sum a
    | S fuel =>
        let n2 := (n / 2 - (n / 2) mod 8)%nat in
        PrimFloat.add (pairwise_sum fuel (take n2 a))
                      (pairwise_sum fuel (drop n2 a))
    end.

(** [np.sum] *)
Definition sum (a : list float) : float := pairwise_sum (length a) a.

(** [np.mean]: NaN on the empty array. *)
Definition mean (a : list float) : float := PrimFloat.div (sum a) (count a).

(** [a[m]] *)
Fixpoint select (a : list float) (m : list bool) : list float :=
  match a, m with
  | x :: r, b :: s => if b then x :: select r s else select r s
  | _, _ => []
  end.

Definition bands : list (string * (float * float)) :=
  [ ("sub_bass",   (20,   60));
    ("mid_bass",   (60,   250));
    ("low_mids",   (250,  500));
    ("mids",       (500,  2000));
    ("upper_mids", (2000, 4000));
    ("presence",   (4000, 6000));
    ("brilliance", (6000, 12000)) ]%float.

Definition threshold : float := 3%float.

(** [a - c] and [a + c] for an array and a scalar *)
Definition sub_scalar (a : list float) (c : float) : list float :=
  map (fun x => PrimFloat.sub x c) a.

Definition spl_norm (spl : list float) : list float :=
  sub_scalar spl (mean spl).

(** [a >= c] and [a < c], elementwise; a comparison with NaN is false. *)
Definition ge_scalar (a : list float) (c : float) : list bool :=
  map (fun x => PrimFloat.leb c x) a.
Definition lt_scalar (a : list float) (c : float) : list bool :=
  map (fun x => PrimFloat.ltb x c) a.

Definition mask (low high : float) (freqs : list float) : list bool :=
  Np.and_ (ge_scalar freqs low) (lt_scalar freqs high).

Definition band_mean (low high : float) (freqs levels : list float)
  : option float :=
  let mask := mask low high freqs in
  if Np.any mask then Some (mean (select levels mask)) else None.

Definition band_means (freqs levels : list float)
  : gmap string (option float) :=
  foldl (fun bm '(band, (low, high)) =>
           <[band := band_mean low high freqs levels]> bm)
        ∅ bands.

Definition getitem (d : gmap string (option float)) (key : string)
  : option float := d !!! key.

Definition is_not_None (x : option float) : bool :=
  match x with Some _ => true | None => false end.

Definition bass_avg (band_means : gmap string (option float))
  : option float :=
  match getitem band_means "sub_bass", getitem band_means "mid_bass" with
  | Some sb, Some mb => Some (PrimFloat.div (PrimFloat.add sb mb) 2)
  | sb, mb => if is_not_None sb then sb else mb
  end.

Definition mid_values (band_means : gmap string (option float))
  : list float :=
  omap id [ getitem band_means "low_mids";
            getitem band_means "mids";
            getitem band_means "upper_mids" ].

Definition mid_avg (band_means : gmap string (option float))
  : option float :=
  match mid_values band_means with
  | [] => None
  | vs => Some (mean vs)
  end.

Definition treble_avg (band_means : gmap string (option float))
  : option float :=
  match getitem band_means "presence", getitem band_means "brilliance" with
  | Some p, Some b => Some (PrimFloat.div (PrimFloat.add p b) 2)
  | p, b => if is_not_None p then p else b
  end.

Definition diffs (bass_avg mid_avg treble_avg : option float)
  : option (float * float) :=
  match bass_avg, mid_avg, treble_avg with
  | Some b, Some m, Some t => Some (PrimFloat.sub b m, PrimFloat.sub t m)
  | _, _, _ => None
  end.

Definition rules (threshold bass_diff treble_diff : float) : string :=
  if PrimFloat.leb threshold bass_diff && PrimFloat.leb threshold treble_diff
  then "V-shape"
  else if PrimFloat.leb threshold treble_diff
          && PrimFloat.ltb bass_diff threshold
  then "Bright"
  else if PrimFloat.leb threshold bass_diff
          && PrimFloat.ltb treble_diff threshold
  then "Warm"
  else "Neutral".

Definition label (threshold : float) (bass_avg mid_avg treble_avg : option float)
  : string :=
  match diffs bass_avg mid_avg treble_avg with
  | Some (bass_diff, treble_diff) => rules threshold bass_diff treble_diff
  | None => "Neutral"
  end.

Definition regions (freqs levels : list float) :=
  let band_means := band_means freqs levels in
  (bass_avg band_means, mid_avg band_means, treble_avg band_means).

Definition curve_diffs (freqs spl : list float) : option (float * float) :=
  let '(b, m, t) := regions freqs (spl_norm spl) in diffs b m t.

Definition label_of_curve (freqs spl : list float) : string :=
  let band_means := band_means freqs (spl_norm spl) in
  label threshold (bass_avg band_means) (mid_avg band_means)
        (treble_avg band_means).

End F64.

(** ** Notions used in the statements *)

(** A frequency lies in the half-open interval from [low] to [high]. *)
Definition in_band (low high f : Qc) : Prop := low ≤ f ∧ f < high.

#[global] Instance in_band_dec low high f : Decision (in_band low high f).
Proof. unfold in_band. apply _. Defined.

(** The samples of a curve, frequency and level side by side. *)
Definition samples (freqs levels : list Qc) : list (Qc * Qc) :=
  zip freqs levels.

(** The levels of exactly those samples whose frequency lies in the band,
    in curve order. *)
Definition levels_in (low high : Qc) (freqs levels : list Qc) : list Qc :=
  (filter (λ s, in_band low high s.1) (samples freqs levels)).*2.

(** The arithmetic mean of the levels in a band, undefined when no sample
    falls into it. *)
Definition mean_in (low high : Qc) (freqs levels : list Qc) : option Qc :=
  match levels_in low high freqs levels with
  | [] => None
  | vs => Some (Np.sum vs / Np.count vs)
  end.

(** The mean of the defined operands among [operands], undefined when none
    of them is defined. *)
Definition defined_mean (operands : list (option Qc)) : option Qc :=
  match omap id operands with
  | [] => None
  | vs => Some (Np.sum vs / Np.count vs)
  end.

(** The span covered by the seven bands: from 20 Hz up to, not including,
    12000 Hz. *)
Definition in_range (f : Qc) : Prop := in_band (Qc_of_Z 20) (Qc_of_Z 12000) f.

#[global] Instance in_range_dec f : Decision (in_range f).
Proof. unfold in_range. apply _. Defined.

(** The samples of a curve that lie in the span of the bands. *)
Definition in_range_samples (freqs levels : list Qc) : list (Qc * Qc) :=
  filter (λ s, in_range s.1) (samples freqs levels).

(** The three region averages of a normalised curve. *)
Definition regions (freqs levels : list Qc)
  : option Qc * option Qc * option Qc :=
  let band_means := band_means freqs levels in
  (bass_avg band_means, mid_avg band_means, treble_avg band_means).

(** The two differences the script computes for a curve, if it computes
    them. *)
Definition curve_diffs (freqs spl : list Qc) : option (Qc * Qc) :=
  let '(bass_avg, mid_avg, treble_avg) := regions freqs (spl_norm spl) in
  diffs bass_avg mid_avg treble_avg.

(** The decision table of the classifier, read as a relation: label [l]
    owns the point [(bass_diff, treble_diff)] of the plane. *)
Definition owns (threshold : Qc) (l : string) (bass_diff treble_diff : Qc)
  : Prop :=
  (l = "V-shape" ∧ threshold ≤ bass_diff ∧ threshold ≤ treble_diff) ∨
  (l = "Bright" ∧ threshold ≤ treble_diff ∧ bass_diff < threshold) ∨
  (l = "Warm" ∧ threshold ≤ bass_diff ∧ treble_diff < threshold) ∨
  (l = "Neutral" ∧ bass_diff < threshold ∧ treble_diff < threshold).

(** A directory entry is filtered out by the loop: wrong extension, or a
    table with fewer than two columns. *)
Definition skipped (read_csv : string → DataFrame) (filename : string)
  : Prop :=
  Py.endswith (Py.lower filename) ".csv" = false ∨
  (shape1 (read_csv (Py.path_join input_dir [filename])) < 2)%nat.

(** A directory entry goes through the whole pipeline: it has the
    extension and its table loads with at least two columns. *)
Definition proceeds (load : string → option DataFrame) (filename : string)
  : Prop :=
  Py.endswith (Py.lower filename) ".csv" = true ∧
  ∃ df, load (Py.path_join input_dir [filename]) = Some df ∧
        (2 ≤ shape1 df)%nat.


#[global] Instance proceeds_dec load filename :
  Decision (proceeds load filename).
Proof.
  unfold proceeds.
  destruct (Py.endswith (Py.lower filename) ".csv");
    [|right; by intros [? _]].
  destruct (load (Py.path_join input_dir [filename])) as [df|];
    [|right; by intros [_ (df & ? & _)]].
  destruct (decide (2 ≤ shape1 df)%nat) as [H|H].
  - left. eauto.
  - right. intros [_ (df' & [= <-] & ?)]. done.
Defined.


(** ** Notions used in the further properties *)

(** [c in s] for a one-character [c] *)
Fixpoint contains (c : ascii) (s : string) : bool :=
  match s with
  | EmptyString => false
  | String a r => Ascii.eqb a c || contains c r
  end.

(** The directories created before the loop (lines 18-20), in creation
    order: for each class, its folder in the image tree and its folder in
    the CSV tree. *)
Definition created_dirs : list string :=
  flat_map (λ cls, [ Py.path_join output_img_dir [cls];
                     Py.path_join output_csv_dir [cls] ]) classes.

(** The label with the roles of Bass and Treble exchanged. *)
Definition mirror (l : string) : string :=
  if String.eqb l "Bright" then "Warm"
  else if String.eqb l "Warm" then "Bright"
  else l.

#[global] Instance skipped_dec read_csv filename :
  Decision (skipped read_csv filename).
Proof. unfold skipped. apply _. Defined.

(** * Properties *)

(** Closed equations between numbers are settled by evaluating the left
    side and comparing the fractions. *)
Ltac by_evaluation :=
  match goal with
  | |- ?lhs = _ => let v := eval vm_compute in lhs in change lhs with v
  end;
  repeat f_equal; apply Qc_is_canon; reflexivity.

(** ** Arithmetic of sums and means *)

Section Means.

Implicit Types (a : list Qc) (c x : Qc).

Lemma count_nil : Np.count [] = 0.
Proof. apply Z2Qc_inj_0. Qed.

Lemma count_cons x a : Np.count (x :: a) = Np.count a + 1.
Proof.
  unfold Np.count. simpl length.
  by rewrite Nat2Z.inj_succ, <- Z.add_1_r, Z2Qc_inj_add, Z2Qc_inj_1.
Qed.





Lemma mean_singleton x : Np.mean [x] = x.
Proof.
  unfold Np.mean. rewrite count_cons, count_nil. simpl. field. done.
Qed.

Lemma mean_pair x c : Np.mean [x; c] = (x + c) / Qc_of_Z 2.
Proof.
  unfold Np.mean. rewrite !count_cons, count_nil, Z2Qc_inj_2. simpl.
  field. done.
Qed.



End Means.

(** ** Masks and boolean indexing *)

Section Masks.

Implicit Types (low high f : Qc) (freqs levels : list Qc).

Lemma mask_map low high freqs :
  mask low high freqs = map (λ f, bool_decide (in_band low high f)) freqs.
Proof.
  unfold mask, Np.ge_scalar, Np.lt_scalar.
  induction freqs as [|f freqs IH]; simpl; [done|].
  rewrite IH. f_equal. rewrite <- bool_decide_and. by apply bool_decide_ext.
Qed.

Lemma mask_lookup low high freqs i f :
  freqs !! i = Some f →
  mask low high freqs !! i = Some (bool_decide (in_band low high f)).
Proof. intros H. by rewrite mask_map, list_lookup_fmap, H. Qed.

Lemma select_mask low high freqs levels :
  Np.select levels (mask low high freqs) = levels_in low high freqs levels.
Proof.
  rewrite mask_map. unfold levels_in, samples.
  revert levels.
  induction freqs as [|f freqs IH]; intros [|x levels]; simpl; try done.
  rewrite filter_cons. simpl.
  case_bool_decide; case_decide; try done; simpl; by rewrite IH.
Qed.

Lemma any_mask low high freqs :
  Np.any (mask low high freqs) = true ↔ ∃ f, f ∈ freqs ∧ in_band low high f.
Proof.
  rewrite mask_map. unfold Np.any. rewrite existsb_exists. split.
  - intros (b & Hb & Hid).
    apply list_elem_of_In, list_elem_of_fmap in Hb as (f & -> & Hf).
    exists f. split; [done|]. by apply bool_decide_eq_true in Hid.
  - intros (f & Hf & Hin). exists true. split; [|done].
    apply list_elem_of_In, list_elem_of_fmap. exists f. split; [|done].
    symmetry. by apply bool_decide_eq_true.
Qed.

(** With one level per frequency, no level is selected exactly when no
    frequency lies in the band. *)
Lemma levels_in_nil low high freqs levels :
  length freqs = length levels →
  levels_in low high freqs levels = [] ↔
  ∀ f, f ∈ freqs → ¬ in_band low high f.
Proof.
  unfold levels_in, samples. revert levels.
  induction freqs as [|f freqs IH]; intros [|x levels] Hlen;
    simplify_eq/=.
  - split; [|done]. intros _ f Hf. by apply elem_of_nil in Hf.
  - rewrite filter_cons. simpl. case_decide as Hin; simpl.
    + split; [done|]. intros H. destruct (H f); [left|done].
    + rewrite (IH levels Hlen). split.
      * intros H g [->|Hg]%elem_of_cons; auto.
      * intros H g Hg. apply H. by right.
Qed.

(** What the script stores for a band is the mean of the levels in the
    band. *)
Lemma band_mean_mean_in low high freqs levels :
  length freqs = length levels →
  band_mean low high freqs levels = mean_in low high freqs levels.
Proof.
  intros Hlen. unfold band_mean, mean_in. rewrite select_mask.
  destruct (Np.any (mask low high freqs)) eqn:Hany.
  - apply any_mask in Hany as (f & Hf & Hin).
    destruct (levels_in low high freqs levels) eqn:Hsel; [|done].
    destruct (proj1 (levels_in_nil low high freqs levels Hlen) Hsel f);
      done.
  - destruct (levels_in low high freqs levels) eqn:Hsel; [done|].
    assert (levels_in low high freqs levels = []) as Hnil; [|congruence].
    apply (proj2 (levels_in_nil low high freqs levels Hlen)).
    intros f Hf Hin.
    assert (Np.any (mask low high freqs) = true) as Hany'; [|congruence].
    apply any_mask. eauto.
Qed.

Lemma band_means_lookup freqs levels band low high :
  (band, (low, high)) ∈ bands →
  band_means freqs levels !! band = Some (band_mean low high freqs levels).
Proof.
  unfold bands. rewrite !elem_of_cons, elem_of_nil.
  intros H. repeat destruct H as [H|H]; try done; simplify_eq; reflexivity.
Qed.

End Masks.

(** ** Strings *)

Section Strings.

Implicit Types (s t p suffix : string).

Lemma string_length_app s t :
  String.length (s +:+ t) = (String.length s + String.length t)%nat.
Proof. induction s as [|c s IH]; simpl; [done|]. by rewrite IH. Qed.

Lemma substring_all s : String.substring 0 (String.length s) s = s.
Proof. induction s as [|c s IH]; simpl; [done|]. by rewrite IH. Qed.

Lemma substring_app_r p s :
  String.substring (String.length p) (String.length s) (p +:+ s) = s.
Proof. induction p as [|c p IH]; simpl; [apply substring_all|done]. Qed.

Lemma substring_split s (i : nat) :
  (i ≤ String.length s)%nat →
  s = String.substring 0 i s +:+ String.substring i (String.length s - i) s.
Proof.
  revert i. induction s as [|c s IH]; intros [|i] Hi; simpl in *.
  - done.
  - lia.
  - by rewrite substring_all.
  - change (String c ?a +:+ ?b) with (String c (a +:+ b)).
    f_equal. apply IH. lia.
Qed.

(** [endswith] holds exactly of the strings that are some stem followed
    by the suffix. *)
Lemma endswith_spec s suffix :
  Py.endswith s suffix = true ↔ ∃ stem, s = stem +:+ suffix.
Proof.
  unfold Py.endswith.
  rewrite andb_true_iff, Nat.leb_le, String.eqb_eq. split.
  - intros [Hle Hsub].
    exists (String.substring 0 (String.length s - String.length suffix) s).
    pose proof (substring_split s (String.length s - String.length suffix))
      as Hs.
    replace (String.length s - (String.length s - String.length suffix))%nat
      with (String.length suffix) in Hs by lia.
    rewrite Hsub in Hs. apply Hs. lia.
  - intros [stem ->]. rewrite string_length_app. split; [lia|].
    replace (String.length stem + String.length suffix
             - String.length suffix)%nat
      with (String.length stem) by lia.
    apply substring_app_r.
Qed.

End Strings.

(** ** The classifier *)

Section Classifier.

Implicit Types (thr bd td : Qc) (l : string).

Lemma threshold_side thr x :
  (thr ≤ x ∧ ¬ x < thr) ∨ (x < thr ∧ ¬ thr ≤ x).
Proof.
  destruct (Qclt_le_dec x thr) as [H|H].
  - right. split; [done|]. by apply Qclt_not_le.
  - left. split; [done|]. by apply Qcle_not_lt.
Qed.

(** The cascade answers [l] exactly at the points that [l] owns. *)
Lemma rules_owns thr bd td l : rules thr bd td = l ↔ owns thr l bd td.
Proof.
  unfold rules, owns.
  destruct (threshold_side thr bd) as [[Hb Hb']|[Hb Hb']],
           (threshold_side thr td) as [[Ht Ht']|[Ht Ht']].
  all: repeat case_bool_decide; simpl; try contradiction.
  all: split;
    [ intros <-; auto 6
    | intros [(-> & ? & ?)|[(-> & ? & ?)|[(-> & ? & ?)|(-> & ? & ?)]]];
      first [reflexivity | contradiction] ].
Qed.

Ltac owns_row :=
  unfold owns; split;
  [ intros [(? & ? & ?)|[(? & ? & ?)|[(? & ? & ?)|(? & ? & ?)]]]; done
  | auto 7 ].

Lemma owns_V_shape thr bd td :
  owns thr "V-shape" bd td ↔ thr ≤ bd ∧ thr ≤ td.
Proof. owns_row. Qed.

Lemma owns_Bright thr bd td :
  owns thr "Bright" bd td ↔ thr ≤ td ∧ bd < thr.
Proof. owns_row. Qed.

Lemma owns_Warm thr bd td :
  owns thr "Warm" bd td ↔ thr ≤ bd ∧ td < thr.
Proof. owns_row. Qed.

Lemma owns_Neutral thr bd td :
  owns thr "Neutral" bd td ↔ bd < thr ∧ td < thr.
Proof. owns_row. Qed.

(** The region of [Neutral] is what the three other rows leave. *)
Lemma otherwise_Neutral thr bd td :
  bd < thr ∧ td < thr ↔
  ¬ (thr ≤ bd ∧ thr ≤ td) ∧ ¬ (thr ≤ td ∧ bd < thr) ∧
  ¬ (thr ≤ bd ∧ td < thr).
Proof.
  pose proof (threshold_side thr bd). pose proof (threshold_side thr td).
  tauto.
Qed.

Lemma rules_classes thr bd td : rules thr bd td ∈ classes.
Proof.
  unfold rules, classes. repeat (case_bool_decide; simpl); set_solver.
Qed.

Lemma label_classes thr b m t : label thr b m t ∈ classes.
Proof.
  unfold label. destruct (diffs b m t) as [[bd td]|].
  - apply rules_classes.
  - unfold classes. set_solver.
Qed.

Lemma diffs_None b m t :
  diffs b m t = None ↔ b = None ∨ m = None ∨ t = None.
Proof.
  destruct b, m, t; simpl;
    (split; [intros; first [done | auto] | intros [?|[?|?]]; done]).
Qed.

End Classifier.

(** ** The region combiner *)

Section Combiner.

Implicit Types (x y : option Qc).

(** The two-operand rule of Bass and Treble agrees with the mean of the
    defined operands in each of its four cases. *)
Ltac pair_rule x y :=
  unfold defined_mean;
  destruct x as [a|], y as [b|]; simpl; [| | |done]; f_equal;
  [ exact (eq_sym (mean_pair a b))
  | exact (eq_sym (mean_singleton a))
  | exact (eq_sym (mean_singleton b)) ].

Lemma all_None_nil : (∀ o : option Qc, o ∈ [] → o = None) ↔ True.
Proof. split; [done|]. intros _ o Ho. by apply elem_of_nil in Ho. Qed.

Lemma all_None_cons x (l : list (option Qc)) :
  (∀ o, o ∈ x :: l → o = None) ↔ x = None ∧ ∀ o, o ∈ l → o = None.
Proof.
  split.
  - intros H. split; [apply H; by left|]. intros o Ho. apply H. by right.
  - intros [-> H] o [->|Ho]%elem_of_cons; auto.
Qed.

Lemma defined_mean_None (operands : list (option Qc)) :
  defined_mean operands = None ↔ ∀ o, o ∈ operands → o = None.
Proof.
  unfold defined_mean. induction operands as [|[a|] operands IH]; simpl.
  - split; [|done]. intros _ o Ho. by apply elem_of_nil in Ho.
  - split; [done|]. intros H. by specialize (H (Some a) ltac:(left)).
  - rewrite IH. split.
    + intros H o [->|Ho]%elem_of_cons; auto.
    + intros H o Ho. apply H. by right.
Qed.

Lemma bass_avg_defined_mean bm :
  bass_avg bm = defined_mean [getitem bm "sub_bass"; getitem bm "mid_bass"].
Proof.
  unfold bass_avg.
  pair_rule (getitem bm "sub_bass") (getitem bm "mid_bass").
Qed.

Lemma treble_avg_defined_mean bm :
  treble_avg bm =
  defined_mean [getitem bm "presence"; getitem bm "brilliance"].
Proof.
  unfold treble_avg.
  pair_rule (getitem bm "presence") (getitem bm "brilliance").
Qed.

Lemma mid_avg_defined_mean bm :
  mid_avg bm =
  defined_mean [getitem bm "low_mids"; getitem bm "mids";
                getitem bm "upper_mids"].
Proof. reflexivity. Qed.

End Combiner.

(** ** Samples outside the span of the bands *)

Section Range.
Implicit Types (low high f : Qc) (freqs levels : list Qc).

Lemma bands_in_range band low high f :
  (band, (low, high)) ∈ bands → in_band low high f → in_range f.
Proof.
  unfold bands. rewrite !elem_of_cons, elem_of_nil.
  unfold in_range, in_band. intros H [Hlo Hhi].
  repeat destruct H as [H|H]; try done; simplify_eq; split.
  all: first
    [ done
    | (etrans; [|exact Hlo]); by apply Z2Qc_inj_le
    | eapply Qclt_le_trans; [exact Hhi|]; by apply Z2Qc_inj_le ].
Qed.

Lemma band_means_ext freqs1 levels1 freqs2 levels2 :
  (∀ band low high, (band, (low, high)) ∈ bands →
     band_mean low high freqs1 levels1 = band_mean low high freqs2 levels2) →
  band_means freqs1 levels1 = band_means freqs2 levels2.
Proof.
  unfold band_means. generalize (∅ : gmap string (option Qc)).
  induction bands as [|[band [low high]] bs IH]; intros bm H; [done|].
  simpl. rewrite (H band low high) by left. apply IH.
  intros band' low' high' Hin. apply (H band'). by right.
Qed.

Lemma zip_fst_snd (l : list (Qc * Qc)) : zip (l.*1) (l.*2) = l.
Proof. induction l as [|[f x] l IH]; [done|]. csimpl. by rewrite IH. Qed.

Lemma levels_in_in_range band low high freqs levels :
  (band, (low, high)) ∈ bands →
  levels_in low high (in_range_samples freqs levels).*1
                     (in_range_samples freqs levels).*2
  = levels_in low high freqs levels.
Proof.
  intros Hband. unfold levels_in, samples at 1. rewrite zip_fst_snd.
  unfold in_range_samples. f_equal.
  induction (samples freqs levels) as [|[f x] l IH]; [done|].
  rewrite !filter_cons. simpl.
  destruct (decide (in_band low high f)) as [Hin|Hout].
  - rewrite decide_True by by eapply bands_in_range.
    rewrite filter_cons. simpl. rewrite decide_True by done. by rewrite IH.
  - case_decide; [|done]. rewrite filter_cons. simpl.
    by rewrite decide_False by done.
Qed.

Lemma in_range_samples_sub_scalar freqs levels c :
  in_range_samples freqs (Np.sub_scalar levels c) =
  prod_map id (λ x, x - c) <$> in_range_samples freqs levels.
Proof.
  unfold in_range_samples, samples, Np.sub_scalar. revert levels.
  induction freqs as [|f freqs IH]; intros [|x levels]; simpl; try done.
  rewrite !filter_cons. simpl. case_decide; simpl; by rewrite IH.
Qed.

Lemma band_means_in_range freqs levels :
  length freqs = length levels →
  band_means freqs levels =
  band_means (in_range_samples freqs levels).*1
             (in_range_samples freqs levels).*2.
Proof.
  intros Hlen. apply band_means_ext. intros band low high Hband.
  rewrite !band_mean_mean_in by (by rewrite ?length_fmap).
  unfold mean_in. by rewrite (levels_in_in_range band).
Qed.
End Range.

(** ** The table and the curve *)

(** The two arrays the pipeline works on have one level per frequency. *)
Lemma columns_same_length (df : DataFrame) :
  well_formed df →
  (2 ≤ shape1 df)%nat →
  length (column df 0) = length (spl_norm (column df 1)).
Proof.
  intros Hwf Hcols. unfold spl_norm, Np.sub_scalar. rewrite length_map.
  unfold shape1 in Hcols.
  apply Hwf; apply list_elem_of_In, nth_In; lia.
Qed.

(** ** The loop and the loader *)

Section RunFacts.
Variable load : string → option DataFrame.
Implicit Types (filename : string) (listing before after : list string).

(** On a table that loads, an iteration is the body [process_file]. *)
Lemma iteration_loaded filename df :
  load (Py.path_join input_dir [filename]) = Some df →
  iteration load filename = Some (process_file (λ _, df) filename).
Proof.
  intros H. unfold iteration, process_file. rewrite H.
  destruct (Py.endswith (Py.lower filename) ".csv"); [|done].
  simpl negb. cbv iota zeta. by destruct (_ <? _)%nat.
Qed.














(** With a loader that never raises, the run is the loop [main]. *)
Lemma run_total (read_csv : string → DataFrame) listing :
  run (λ p, Some (read_csv p)) listing = (main read_csv listing, true).
Proof.
  unfold main. induction listing as [|f listing IH]; [done|].
  simpl. rewrite IH.
  assert (iteration (λ p, Some (read_csv p)) f
          = Some (process_file read_csv f)) as ->; [|done].
  unfold iteration, process_file.
  destruct (Py.endswith (Py.lower f) ".csv"); [|done].
  simpl negb. cbv iota zeta. by destruct (_ <? _)%nat.
Qed.
End RunFacts.

(** ** Definedness on binary64 *)

(** Which band means and region means are defined is read off the
    frequencies alone. *)
Section F64Facts.
Implicit Types (freqs levels : list float).








End F64Facts.

(** ** Worked examples *)

(** The four scenarios of the specification, at the configured threshold. *)
Example scenario_A :
  label threshold (Some (Qc_of_Z 5)) (Some (Qc_of_Z 0)) (Some (Qc_of_Z 5))
  = "V-shape".
Proof. reflexivity. Qed.

Example scenario_B :
  label threshold (Some (Qc_of_Z 0)) (Some (Qc_of_Z 0)) (Some (Qc_of_Z 6))
  = "Bright".
Proof. reflexivity. Qed.

Example scenario_C :
  label threshold (Some (Qc_of_Z 4)) (Some (Qc_of_Z 0)) (Some (Qc_of_Z 1))
  = "Warm".
Proof. reflexivity. Qed.

Example scenario_D :
  label threshold (Some (Qc_of_Z 1)) (Some (Qc_of_Z 0)) (Some (Qc_of_Z 1))
  = "Neutral".
Proof. reflexivity. Qed.

(** A difference of exactly the threshold counts as emphasis. *)
Example on_the_threshold_lines :
  rules threshold (Qc_of_Z 3) (Qc_of_Z 3) = "V-shape" ∧
  rules threshold (Qc_of_Z 3) (Qc_of_Z 2) = "Warm" ∧
  rules threshold (Qc_of_Z 2) (Qc_of_Z 3) = "Bright".
Proof. repeat split; reflexivity. Qed.

(** Scenario E: no sample at or above 6000 Hz, so brilliance is undefined;
    Treble is presence alone and the curve is classified. *)
Example scenario_E :
  let freqs := Qc_of_Z <$> [30; 1000; 5000]%Z in
  let spl := Qc_of_Z <$> [0; 0; 9]%Z in
  band_means freqs (spl_norm spl) !! "brilliance" = Some None ∧
  band_means freqs (spl_norm spl) !! "presence" = Some (Some (Qc_of_Z 6)) ∧
  regions freqs (spl_norm spl)
  = (Some (Qc_of_Z (-3)), Some (Qc_of_Z (-3)), Some (Qc_of_Z 6)) ∧
  label_of_curve freqs spl = "Bright".
Proof.
  split; [reflexivity|]. split; [|split; [|reflexivity]].
  - by_evaluation.
  - by_evaluation.
Qed.

(** A loud sample above the bands moves every band mean, through the mean
    level, and leaves the label where it was. *)
Example sample_above_the_bands :
  let freqs := Qc_of_Z <$> [30; 1000; 5000]%Z in
  let spl := Qc_of_Z <$> [0; 0; 9]%Z in
  let freqs' := freqs ++ [Qc_of_Z 20000] in
  let spl' := spl ++ [Qc_of_Z 91] in
  in_range_samples freqs' spl' = in_range_samples freqs spl ∧
  band_means freqs' (spl_norm spl') !! "presence"
  = Some (Some (Qc_of_Z (-16))) ∧
  label_of_curve freqs' spl' = "Bright".
Proof.
  split; [reflexivity|]. split; [|reflexivity].
  by_evaluation.
Qed.

(** A whole iteration on a seven-sample table; the last sample lies above
    the bands, and the name has an upper-case extension. *)
Example one_iteration :
  let freqs := Qc_of_Z <$> [30; 100; 1000; 5000; 8000; 60; 20000]%Z in
  let spl := Qc_of_Z <$> [10; 8; 0; 3; 9; 2; 100]%Z in
  label_of_curve freqs spl = "V-shape" ∧
  process_file (λ _, {| columns := [freqs; spl] |}) "Ab.CSV"
  = [ savefig "dataset5/images/V-shape/Ab.png" freqs (spl_norm spl);
      copy2 "SuperInEar/Ab.CSV" "dataset5/csvs/V-shape/Ab.CSV" ] ∧
  process_file (λ _, {| columns := [freqs; spl] |}) "notes.txt" = [] ∧
  process_file (λ _, {| columns := [freqs] |}) "Ab.CSV" = [].
Proof. repeat split; reflexivity. Qed.

(** * The claims *)

(** C1.  For every defined triple (Bass, Mid, Treble) and every threshold,
    with [bass_diff = Bass - Mid] and [treble_diff = Treble - Mid], the
    classifier returns one of the four labels, and it returns label [l]
    exactly when the decision table gives [l] the point
    [(bass_diff, treble_diff)]: both differences at or above the threshold
    for V-shape, only the treble one for Bright, only the bass one for
    Warm, none for Neutral.  Every point of the plane is owned by exactly
    one label: the four regions neither overlap nor leave a gap on the
    threshold lines. *)
Theorem C1_label_follows_table (thr bass mid treble : Qc) :
  let bass_diff := bass - mid in
  let treble_diff := treble - mid in
  let l := label thr (Some bass) (Some mid) (Some treble) in
  l ∈ classes ∧
  (∀ l', l = l' ↔ owns thr l' bass_diff treble_diff) ∧
  (l = "V-shape" ↔ thr ≤ bass_diff ∧ thr ≤ treble_diff) ∧
  (l = "Bright" ↔ thr ≤ treble_diff ∧ bass_diff < thr) ∧
  (l = "Warm" ↔ thr ≤ bass_diff ∧ treble_diff < thr) ∧
  (l = "Neutral" ↔
     ¬ (thr ≤ bass_diff ∧ thr ≤ treble_diff) ∧
     ¬ (thr ≤ treble_diff ∧ bass_diff < thr) ∧
     ¬ (thr ≤ bass_diff ∧ treble_diff < thr)) ∧
  (∃ l', owns thr l' bass_diff treble_diff) ∧
  (∀ l1 l2, owns thr l1 bass_diff treble_diff →
            owns thr l2 bass_diff treble_diff → l1 = l2).
Proof.
  intros bd td l.
  assert (∀ l', l = l' ↔ owns thr l' bd td) as Hown.
  { intros l'. apply rules_owns. }
  split; [apply label_classes|]. split; [done|].
  rewrite !Hown, owns_V_shape, owns_Bright, owns_Warm, owns_Neutral.
  do 3 (split; [done|]). split; [apply otherwise_Neutral|]. split.
  - exists l. by apply Hown.
  - intros l1 l2 H1%Hown H2%Hown. congruence.
Qed.

(** C2.  If any one of the three region means Bass, Mid, Treble is
    undefined, the guard fails: neither difference is computed and the
    label is the default [Neutral], whatever the threshold.  This holds of
    the label of every input curve. *)
Theorem C2_undefined_region_gives_neutral
    (thr : Qc) (bass mid treble : option Qc) :
  bass = None ∨ mid = None ∨ treble = None →
  diffs bass mid treble = None ∧
  label thr bass mid treble = "Neutral" ∧
  (∀ freqs spl, regions freqs (spl_norm spl) = (bass, mid, treble) →
     curve_diffs freqs spl = None ∧ label_of_curve freqs spl = "Neutral").
Proof.
  intros H%diffs_None. split; [done|]. split.
  - unfold label. by rewrite H.
  - intros freqs spl Hreg. unfold curve_diffs, label_of_curve.
    unfold regions in Hreg. simplify_eq. unfold regions, label.
    by rewrite H.
Qed.

Lemma C2_witness :
  (@None Qc = None ∨ Some (Qc_of_Z 0) = None ∨ Some (Qc_of_Z 9) = None) ∧
  label threshold None (Some (Qc_of_Z 0)) (Some (Qc_of_Z 9)) = "Neutral".
Proof.
  split; [by left|].
  apply (C2_undefined_region_gives_neutral
           threshold None (Some (Qc_of_Z 0)) (Some (Qc_of_Z 9))).
  by left.
Defined.

(** C3.  For every curve of normalised levels (one level per frequency)
    and each of the seven bands, the stored band mean is the arithmetic
    mean of the levels of exactly the samples with [low ≤ f < high], and it
    is [None], the marker of "no data" and not a number, exactly when no
    sample falls in the band.  The interval is half-open: a sample at
    exactly 60 Hz is masked out of sub_bass and in for mid_bass, a sample
    at exactly 2000 Hz out of mids and in for upper_mids. *)
Theorem C3_band_mean_half_open (freqs levels : list Qc) :
  length freqs = length levels →
  (∀ band low high, (band, (low, high)) ∈ bands →
     band_means freqs levels !! band = Some (mean_in low high freqs levels) ∧
     (band_means freqs levels !! band = Some None ↔
      ∀ f, f ∈ freqs → ¬ (low ≤ f ∧ f < high))) ∧
  (∀ i, freqs !! i = Some (Qc_of_Z 60) →
     mask (Qc_of_Z 20) (Qc_of_Z 60) freqs !! i = Some false ∧
     mask (Qc_of_Z 60) (Qc_of_Z 250) freqs !! i = Some true) ∧
  (∀ i, freqs !! i = Some (Qc_of_Z 2000) →
     mask (Qc_of_Z 500) (Qc_of_Z 2000) freqs !! i = Some false ∧
     mask (Qc_of_Z 2000) (Qc_of_Z 4000) freqs !! i = Some true).
Proof.
  intros Hlen. split; [|split].
  - intros band low high Hband.
    rewrite (band_means_lookup _ _ _ _ _ Hband), band_mean_mean_in by done.
    split; [done|].
    rewrite <- (levels_in_nil low high freqs levels Hlen).
    unfold mean_in. destruct (levels_in low high freqs levels); split; done.
  - intros i Hi. by rewrite !(mask_lookup _ _ _ _ _ Hi).
  - intros i Hi. by rewrite !(mask_lookup _ _ _ _ _ Hi).
Qed.

Lemma C3_witness :
  length [Qc_of_Z 60; Qc_of_Z 2000] = length [Qc_of_Z 1; Qc_of_Z 5] ∧
  band_means [Qc_of_Z 60; Qc_of_Z 2000] [Qc_of_Z 1; Qc_of_Z 5] !! "mid_bass"
  = Some (mean_in (Qc_of_Z 60) (Qc_of_Z 250)
                  [Qc_of_Z 60; Qc_of_Z 2000] [Qc_of_Z 1; Qc_of_Z 5]).
Proof.
  split; [reflexivity|].
  apply (C3_band_mean_half_open
           [Qc_of_Z 60; Qc_of_Z 2000] [Qc_of_Z 1; Qc_of_Z 5] eq_refl).
  unfold bands. apply elem_of_cons. right. apply elem_of_cons. by left.
Defined.

(** C4.  The region combiner averages over the defined operands only.
    Bass is the mean of the defined ones among sub_bass and mid_bass,
    Mid of the defined ones among low_mids, mids and upper_mids, Treble of
    the defined ones among presence and brilliance.  With exactly one
    operand of a pair defined, the region is that operand; a region is
    undefined exactly when all of its sub-bands are. *)
Theorem C4_region_combiner (bm : gmap string (option Qc)) :
  let sub_bass := getitem bm "sub_bass" in
  let mid_bass := getitem bm "mid_bass" in
  let low_mids := getitem bm "low_mids" in
  let mids := getitem bm "mids" in
  let upper_mids := getitem bm "upper_mids" in
  let presence := getitem bm "presence" in
  let brilliance := getitem bm "brilliance" in
  bass_avg bm = defined_mean [sub_bass; mid_bass] ∧
  mid_avg bm = defined_mean [low_mids; mids; upper_mids] ∧
  treble_avg bm = defined_mean [presence; brilliance] ∧
  (∀ x, sub_bass = Some x ∧ mid_bass = None ∨
        sub_bass = None ∧ mid_bass = Some x → bass_avg bm = Some x) ∧
  (∀ x, presence = Some x ∧ brilliance = None ∨
        presence = None ∧ brilliance = Some x → treble_avg bm = Some x) ∧
  (bass_avg bm = None ↔ sub_bass = None ∧ mid_bass = None) ∧
  (mid_avg bm = None ↔ low_mids = None ∧ mids = None ∧ upper_mids = None) ∧
  (treble_avg bm = None ↔ presence = None ∧ brilliance = None).
Proof.
  intros sub_bass mid_bass low_mids mids upper_mids presence brilliance.
  split; [apply bass_avg_defined_mean|].
  split; [apply mid_avg_defined_mean|].
  split; [apply treble_avg_defined_mean|].
  split; [|split].
  - intros x [[Hs Hm]|[Hs Hm]]; unfold bass_avg;
      fold sub_bass mid_bass; by rewrite Hs, Hm.
  - intros x [[Hp Hb]|[Hp Hb]]; unfold treble_avg;
      fold presence brilliance; by rewrite Hp, Hb.
  - rewrite bass_avg_defined_mean, mid_avg_defined_mean,
      treble_avg_defined_mean, !defined_mean_None.
    fold sub_bass mid_bass low_mids mids upper_mids presence brilliance.
    rewrite !all_None_cons, !all_None_nil. tauto.
Qed.



(** C6, as the script has it.  The label is the default [Neutral], and no
    difference is computed, as soon as any one of Bass, Mid, Treble is
    undefined; with all three defined the differences are [Bass - Mid] and
    [Treble - Mid] and the label is the outcome of the rules on them.  An
    undefined sub-band alone does not make its region undefined: a region
    is undefined exactly when all its sub-bands are, and with a single
    defined sub-band Bass or Treble is that sub-band's mean.  In
    particular, with brilliance undefined and presence defined, Treble is
    presence alone and, Bass and Mid being defined, the classification
    proceeds on [Treble - Mid = presence - Mid]. *)
Theorem C6_guard_fails_on_any_undefined_region
    (thr : Qc) (bm : gmap string (option Qc)) :
  let bass := bass_avg bm in
  let mid := mid_avg bm in
  let treble := treble_avg bm in
  (bass = None ∨ mid = None ∨ treble = None →
     diffs bass mid treble = None ∧
     label thr bass mid treble = "Neutral") ∧
  (diffs bass mid treble = None ↔ bass = None ∨ mid = None ∨ treble = None) ∧
  (∀ b m t, bass = Some b → mid = Some m → treble = Some t →
     diffs bass mid treble = Some (b - m, t - m) ∧
     label thr bass mid treble = rules thr (b - m) (t - m)) ∧
  (bass = None ↔
     getitem bm "sub_bass" = None ∧ getitem bm "mid_bass" = None) ∧
  (mid = None ↔
     getitem bm "low_mids" = None ∧ getitem bm "mids" = None ∧
     getitem bm "upper_mids" = None) ∧
  (treble = None ↔
     getitem bm "presence" = None ∧ getitem bm "brilliance" = None) ∧
  (∀ v, getitem bm "sub_bass" = Some v → getitem bm "mid_bass" = None →
     bass = Some v) ∧
  (∀ v, getitem bm "sub_bass" = None → getitem bm "mid_bass" = Some v →
     bass = Some v) ∧
  (∀ v, getitem bm "presence" = None → getitem bm "brilliance" = Some v →
     treble = Some v) ∧
  (∀ p, getitem bm "presence" = Some p → getitem bm "brilliance" = None →
     treble = Some p ∧
     ∀ b m, bass = Some b → mid = Some m →
       diffs bass mid treble = Some (b - m, p - m) ∧
       label thr bass mid treble = rules thr (b - m) (p - m)).
Proof.
  intros bass mid treble.
  split; [|split; [apply diffs_None|split]].
  - intros Hany. apply diffs_None in Hany as Hnone.
    split; [done|]. unfold label. by rewrite Hnone.
  - intros b m t -> -> ->. by split.
  - unfold bass, mid, treble, bass_avg, mid_avg, mid_values, treble_avg.
    destruct (getitem bm "sub_bass") as [sb|],
      (getitem bm "mid_bass") as [mb|],
      (getitem bm "low_mids") as [lm|], (getitem bm "mids") as [mi|],
      (getitem bm "upper_mids") as [um|],
      (getitem bm "presence") as [p|],
      (getitem bm "brilliance") as [br|];
      cbn [is_not_None omap list_omap id];
      (split; [split; [by intros ?|by intros [? ?]]|]);
      (split; [split; [by intros ?|by intros (? & ? & ?)]|]);
      (split; [split; [by intros ?|by intros [? ?]]|]);
      (split; [by intros v ? ?; simplify_eq|]);
      (split; [by intros v ? ?; simplify_eq|]);
      (split; [by intros v ? ?; simplify_eq|]);
      intros p' Hp Hb; simplify_eq;
      (split; [done|]); intros b m Hb Hm; simplify_eq; by split.
Qed.

(** C6 as stated fails: on the two-sample curve (1000 Hz, 0 dB),
    (5000 Hz, 10 dB) only Bass is undefined, Mid is -5 and Treble is 5,
    more than the threshold above Mid; still the guard fails, no
    difference is computed and the label is [Neutral]. *)
Lemma C6_counterexample :
  let freqs := [Qc_of_Z 1000; Qc_of_Z 5000] in
  let spl := [Qc_of_Z 0; Qc_of_Z 10] in
  regions freqs (spl_norm spl)
  = (None, Some (Qc_of_Z (-5)), Some (Qc_of_Z 5)) ∧
  curve_diffs freqs spl = None ∧
  label_of_curve freqs spl = "Neutral" ∧
  threshold ≤ Qc_of_Z 5 - Qc_of_Z (-5).
Proof.
  split; [|split; [|split]]; try reflexivity.
  - by_evaluation.
  - by apply (bool_decide_unpack _).
Qed.

(** C7, as the script has it.  For a CSV file whose table has at least two
    columns and no data row, every band mean and every region mean is
    undefined and the label is the default [Neutral]; the file is then
    handled like any other: a plot of the empty curve and the copy of the
    source file are written under [Neutral]. *)
Theorem C7_empty_curve_is_filed_as_neutral
    (read_csv : string → DataFrame) (filename : string) :
  let filepath := Py.path_join input_dir [filename] in
  let df := read_csv filepath in
  let freqs := column df 0 in
  let spl := column df 1 in
  Py.endswith (Py.lower filename) ".csv" = true →
  (2 ≤ shape1 df)%nat →
  freqs = [] →
  spl = [] →
  (∀ band low high, (band, (low, high)) ∈ bands →
     band_means freqs (spl_norm spl) !! band = Some None) ∧
  regions freqs (spl_norm spl) = (None, None, None) ∧
  label_of_curve freqs spl = "Neutral" ∧
  process_file read_csv filename =
    [ savefig (Py.path_join output_img_dir
                 ["Neutral"; (Py.splitext filename).1 +:+ ".png"]) [] [];
      copy2 filepath (Py.path_join output_csv_dir ["Neutral"; filename]) ].
Proof.
  cbv zeta. intros Hext Hcols Hfreqs Hspl.
  split; [|split; [|split]].
  - intros band low high Hband.
    rewrite (band_means_lookup _ _ _ _ _ Hband). by rewrite Hfreqs.
  - by rewrite Hfreqs, Hspl.
  - by rewrite Hfreqs, Hspl.
  - unfold process_file. rewrite Hext. simpl negb. cbv iota.
    destruct (Nat.ltb_spec (shape1 (read_csv (Py.path_join input_dir [filename]))) 2)
      as [Hlt|_]; [by apply Nat.lt_nge in Hlt|].
    by rewrite Hfreqs, Hspl.
Qed.

Lemma C7_witness :
  let read_csv := λ _ : string, {| columns := [[]; []] |} in
  Py.endswith (Py.lower "empty.csv") ".csv" = true ∧
  (2 ≤ shape1 (read_csv "SuperInEar/empty.csv"))%nat ∧
  label_of_curve [] [] = "Neutral".
Proof.
  split; [reflexivity|]. split; [exact (le_n 2)|].
  apply (C7_empty_curve_is_filed_as_neutral
           (λ _, {| columns := [[]; []] |}) "empty.csv");
    [reflexivity | exact (le_n 2) | reflexivity | reflexivity].
Defined.

(** C7 as stated fails: a header-only [empty.csv] is neither rejected nor
    marked; the script writes a plot without any point and the archived
    copy under [Neutral]. *)
Lemma C7_counterexample :
  process_file (λ _, {| columns := [[]; []] |}) "empty.csv" =
  [ savefig "dataset5/images/Neutral/empty.png" [] [];
    copy2 "SuperInEar/empty.csv" "dataset5/csvs/Neutral/empty.csv" ].
Proof. reflexivity. Qed.





(** C10.  A sample whose frequency is below 20 Hz or at or above 12000 Hz
    lies in none of the seven bands and is masked out of each of them;
    dropping all such samples from a normalised curve changes no band mean
    and no region mean.  Through the normaliser they act only by way of
    [mean(levels)]: two curves with the same samples inside the span of
    the bands and the same mean level have the same band means, region
    means and label. *)
Theorem C10_out_of_range_excluded :
  (∀ f band low high,
     f < Qc_of_Z 20 ∨ Qc_of_Z 12000 ≤ f →
     (band, (low, high)) ∈ bands →
     ¬ (low ≤ f ∧ f < high) ∧
     ∀ freqs i, freqs !! i = Some f → mask low high freqs !! i = Some false) ∧
  (∀ freqs levels,
     length freqs = length levels →
     let kept := in_range_samples freqs levels in
     band_means freqs levels = band_means kept.*1 kept.*2 ∧
     regions freqs levels = regions kept.*1 kept.*2) ∧
  (∀ freqs1 spl1 freqs2 spl2,
     length freqs1 = length spl1 →
     length freqs2 = length spl2 →
     in_range_samples freqs1 spl1 = in_range_samples freqs2 spl2 →
     Np.mean spl1 = Np.mean spl2 →
     band_means freqs1 (spl_norm spl1) = band_means freqs2 (spl_norm spl2) ∧
     regions freqs1 (spl_norm spl1) = regions freqs2 (spl_norm spl2) ∧
     label_of_curve freqs1 spl1 = label_of_curve freqs2 spl2).
Proof.
  split; [|split].
  - intros f band low high Hout Hband.
    assert (¬ in_band low high f) as Hnot.
    { intros Hin. apply (bands_in_range band) in Hin as [Hlo Hhi]; [|done].
      destruct Hout as [Hout|Hout].
      - by apply Qclt_not_le in Hout.
      - by apply Qcle_not_lt in Hout. }
    split; [done|]. intros freqs i Hi.
    by rewrite (mask_lookup _ _ _ _ _ Hi), bool_decide_eq_false_2.
  - intros freqs levels Hlen kept.
    assert (band_means freqs levels = band_means kept.*1 kept.*2) as Heq
      by by apply band_means_in_range.
    unfold regions. by rewrite Heq.
  - intros freqs1 spl1 freqs2 spl2 Hlen1 Hlen2 Hsame Hmean.
    assert (band_means freqs1 (spl_norm spl1)
            = band_means freqs2 (spl_norm spl2)) as Heq.
    { rewrite (band_means_in_range freqs1), (band_means_in_range freqs2).
      - unfold spl_norm.
        by rewrite !in_range_samples_sub_scalar, Hsame, Hmean.
      - unfold spl_norm, Np.sub_scalar. by rewrite length_map.
      - unfold spl_norm, Np.sub_scalar. by rewrite length_map. }
    unfold regions, label_of_curve. by rewrite Heq.
Qed.

(** * Further properties of the script *)

(** ** The keys of the dictionary *)

Lemma band_means_dom freqs levels :
  dom (band_means freqs levels) = list_to_set bands.*1.
Proof.
  unfold band_means, bands. simpl.
  rewrite !dom_insert_L, dom_empty_L. reflexivity.
Qed.

Lemma band_means_keys freqs levels key :
  is_Some (band_means freqs levels !! key) ↔ key ∈ bands.*1.
Proof.
  rewrite <- elem_of_dom, band_means_dom. apply elem_of_list_to_set.
Qed.

(** ** Symmetry and threshold *)

Section Mirror.
Implicit Types (thr bd td : Qc).

Lemma rules_mirror thr bd td :
  rules thr td bd = mirror (rules thr bd td).
Proof.
  unfold rules.
  destruct (threshold_side thr bd) as [[Hb Hb']|[Hb Hb']],
           (threshold_side thr td) as [[Ht Ht']|[Ht Ht']].
  all: repeat case_bool_decide; simpl; try contradiction; reflexivity.
Qed.

Lemma rules_threshold thr thr' bd td :
  thr ≤ thr' →
  (rules thr' bd td = "V-shape" → rules thr bd td = "V-shape") ∧
  (rules thr bd td = "Neutral" → rules thr' bd td = "Neutral") ∧
  (rules thr bd td = "Bright" →
   rules thr' bd td = "Bright" ∨ rules thr' bd td = "Neutral") ∧
  (rules thr bd td = "Warm" →
   rules thr' bd td = "Warm" ∨ rules thr' bd td = "Neutral").
Proof.
  intros Hle. rewrite !rules_owns, !owns_V_shape, !owns_Neutral,
    !owns_Bright, !owns_Warm.
  assert (∀ u, thr' ≤ u → thr ≤ u) as Hdown
    by (intros u; by apply Qcle_trans).
  assert (∀ u, u < thr → u < thr') as Hup
    by (intros u Hu; by eapply Qclt_le_trans).
  pose proof (threshold_side thr' bd). pose proof (threshold_side thr' td).
  pose proof (Hdown bd). pose proof (Hdown td).
  pose proof (Hup bd). pose proof (Hup td). tauto.
Qed.
End Mirror.

Lemma label_mirror thr (b m t : option Qc) :
  label thr t m b = mirror (label thr b m t).
Proof.
  unfold label. destruct b as [b|], m as [m|], t as [t|]; simpl;
    try reflexivity.
  apply rules_mirror.
Qed.

(** ** The bands as a partition; shapes of arrays *)

Section Partition.
Implicit Types (f low high : Qc).

Lemma band_covers f :
  in_range f →
  ∃ band low high, (band, (low, high)) ∈ bands ∧ in_band low high f.
Proof.
  intros [Hlo Hhi]. unfold bands, in_band.
  destruct (Qclt_le_dec f (Qc_of_Z 60));
    [eexists _, _, _; split; [by left|done]|].
  destruct (Qclt_le_dec f (Qc_of_Z 250));
    [eexists _, _, _; split; [right; by left|done]|].
  destruct (Qclt_le_dec f (Qc_of_Z 500));
    [eexists _, _, _; split; [do 2 right; by left|done]|].
  destruct (Qclt_le_dec f (Qc_of_Z 2000));
    [eexists _, _, _; split; [do 3 right; by left|done]|].
  destruct (Qclt_le_dec f (Qc_of_Z 4000));
    [eexists _, _, _; split; [do 4 right; by left|done]|].
  destruct (Qclt_le_dec f (Qc_of_Z 6000));
    [eexists _, _, _; split; [do 5 right; by left|done]|].
  eexists _, _, _; split; [do 6 right; by left|done].
Qed.

Lemma band_unique f band1 low1 high1 band2 low2 high2 :
  (band1, (low1, high1)) ∈ bands →
  (band2, (low2, high2)) ∈ bands →
  in_band low1 high1 f → in_band low2 high2 f →
  band1 = band2 ∧ low1 = low2 ∧ high1 = high2.
Proof.
  unfold bands. rewrite !elem_of_cons, !elem_of_nil.
  intros H1 H2 [Hlo1 Hhi1] [Hlo2 Hhi2].
  pose proof (Qcle_lt_trans _ _ _ Hlo1 Hhi2) as H12.
  pose proof (Qcle_lt_trans _ _ _ Hlo2 Hhi1) as H21.
  repeat destruct H1 as [H1|H1]; try done;
    repeat destruct H2 as [H2|H2]; try done; simplify_eq; try done;
    exfalso; apply Z2Qc_inj_lt in H12, H21; lia.
Qed.
End Partition.

Section Shape.
Lemma mask_length low high freqs : length (mask low high freqs) = length freqs.
Proof. by rewrite mask_map, length_map. Qed.

Lemma select_length (a : list Qc) (m : list bool) :
  length a = length m →
  length (Np.select a m) = length (filter (λ b, b = true) m).
Proof.
  revert m. induction a as [|x a IH]; intros [|b m] Hlen; simplify_eq/=.
  - done.
  - rewrite filter_cons. case_decide; destruct b; simplify_eq/=;
      by rewrite IH.
Qed.
End Shape.

(** ** Paths *)

Section Paths.
Implicit Types (s t p stem ext e : string) (c : ascii).

Lemma contains_app c s t :
  contains c (s +:+ t) = contains c s || contains c t.
Proof.
  induction s as [|a s IH]; simpl; [done|]. by rewrite IH, orb_assoc.
Qed.

Lemma contains_substring c s (i n : nat) :
  contains c s = false → contains c (String.substring i n s) = false.
Proof.
  revert i n. induction s as [|a s IH]; intros i n H.
  - by destruct i, n.
  - simpl in H. apply orb_false_iff in H as [Ha Hs].
    destruct i, n; simpl; try done.
    + by rewrite Ha, (IH 0%nat n).
    + by apply IH.
    + by apply IH.
Qed.

Lemma startswith_sep s :
  contains "/" s = false → Py.startswith s "/" = false.
Proof.
  destruct s as [|a s]; [done|]. intros H.
  change (contains "/" (String a s))
    with (Ascii.eqb a "/" || contains "/" s) in H.
  apply orb_false_iff in H as [Ha _].
  change (Py.startswith (String a s) "/")
    with (if ascii_dec "/" a then String.prefix "" s else false).
  destruct (ascii_dec "/" a) as [<-|Hne]; [|done].
  by rewrite Ascii.eqb_refl in Ha.
Qed.

Lemma join2_plain p s :
  contains "/" s = false →
  p ≠ "" → Py.endswith p "/" = false →
  Py.join2 p s = p +:+ "/" +:+ s.
Proof.
  intros Hs Hp Hend. unfold Py.join2. rewrite (startswith_sep s Hs), Hend.
  destruct (String.eqb_spec p ""); [done|done].
Qed.

(** The folder of a class in an output tree, and an entry put into it. *)
Lemma class_folder root cls s :
  root = output_img_dir ∨ root = output_csv_dir →
  cls ∈ classes →
  contains "/" s = false →
  Py.path_join root [cls] ∈ created_dirs ∧
  Py.path_join root [cls; s] = Py.path_join root [cls] +:+ "/" +:+ s.
Proof.
  unfold classes. rewrite !elem_of_cons, elem_of_nil.
  intros Hroot Hcls Hs.
  destruct Hroot as [->| ->];
    repeat destruct Hcls as [Hcls|Hcls]; try done; subst; split;
    first [ by apply join2_plain
          | unfold created_dirs, classes; simpl;
            repeat first [by left | right] ].
Qed.

(** The base name of an entry without separator has none either, and so
    the name of its picture does not start with one. *)
Lemma base_name_plain filename :
  contains "/" filename = false →
  contains "/" ((Py.splitext filename).1 +:+ ".png") = false.
Proof.
  intros H. rewrite contains_app, orb_false_iff. split; [|done].
  unfold Py.splitext. case_match; simpl; [|done].
  unfold Py.slice. by apply contains_substring.
Qed.

(** What an accepted entry writes. *)
Lemma process_file_accepted read_csv filename :
  ¬ skipped read_csv filename →
  let filepath := Py.path_join input_dir [filename] in
  let df := read_csv filepath in
  let label := label_of_curve (column df 0) (column df 1) in
  process_file read_csv filename =
    [ savefig (Py.path_join output_img_dir
                 [label; (Py.splitext filename).1 +:+ ".png"])
              (column df 0) (spl_norm (column df 1));
      copy2 filepath (Py.path_join output_csv_dir [label; filename]) ].
Proof.
  unfold skipped, process_file. intros Hproc. cbv zeta.
  destruct (Py.endswith (Py.lower filename) ".csv"); [|tauto]. simpl negb.
  cbv iota.
  destruct (Nat.ltb_spec
              (shape1 (read_csv (Py.path_join input_dir [filename]))) 2)
    as [Hlt|_]; [tauto|done].
Qed.

Lemma process_file_skipped read_csv filename :
  skipped read_csv filename → process_file read_csv filename = [].
Proof.
  unfold skipped, process_file. intros [Hext|Hcols].
  - by rewrite Hext.
  - destruct (Py.endswith (Py.lower filename) ".csv"); [|done]. simpl negb.
    cbv iota.
    destruct (Nat.ltb_spec
                (shape1 (read_csv (Py.path_join input_dir [filename]))) 2)
      as [_|Hge]; [done|].
    by apply Nat.lt_nge in Hcols.
Qed.

Lemma process_file_paths read_csv filename :
  contains "/" filename = false →
  ¬ skipped read_csv filename →
  ∃ label img_dir csv_dir,
    label ∈ classes ∧
    img_dir = Py.path_join output_img_dir [label] ∧
    csv_dir = Py.path_join output_csv_dir [label] ∧
    img_dir ∈ created_dirs ∧ csv_dir ∈ created_dirs ∧
    process_file read_csv filename =
      [ savefig (img_dir +:+ "/" +:+ (Py.splitext filename).1 +:+ ".png")
          (column (read_csv (input_dir +:+ "/" +:+ filename)) 0)
          (spl_norm (column (read_csv (input_dir +:+ "/" +:+ filename)) 1));
        copy2 (input_dir +:+ "/" +:+ filename)
              (csv_dir +:+ "/" +:+ filename) ].
Proof.
  intros Hplain Hproc.
  pose proof (process_file_accepted read_csv filename Hproc) as Heq.
  cbv zeta in Heq.
  assert (Py.path_join input_dir [filename] = input_dir +:+ "/" +:+ filename)
    as Hin by by apply join2_plain.
  rewrite Hin in Heq.
  set (label := label_of_curve _ _) in Heq.
  assert (label ∈ classes) as Hcls by apply label_classes.
  exists label, (Py.path_join output_img_dir [label]),
    (Py.path_join output_csv_dir [label]).
  destruct (class_folder output_img_dir label
              ((Py.splitext filename).1 +:+ ".png"))
    as [Himg Himg']; [by left|done|by apply base_name_plain|].
  destruct (class_folder output_csv_dir label filename)
    as [Hcsv Hcsv']; [by right|done|done|].
  rewrite Heq, Himg', Hcsv'. done.
Qed.
End Paths.

Section Archive.
Implicit Types (s t p stem ext e : string) (c : ascii).

(** Two entries of class folders are the same path only if they are the
    same entry of the same class. *)
Lemma csv_dest_inj cls1 cls2 s1 s2 :
  cls1 ∈ classes → cls2 ∈ classes →
  contains "/" s1 = false → contains "/" s2 = false →
  Py.path_join output_csv_dir [cls1; s1]
  = Py.path_join output_csv_dir [cls2; s2] →
  cls1 = cls2 ∧ s1 = s2.
Proof.
  intros H1 H2 Hs1 Hs2.
  destruct (class_folder output_csv_dir cls1 s1) as [_ ->];
    [by right|done|done|].
  destruct (class_folder output_csv_dir cls2 s2) as [_ ->];
    [by right|done|done|].
  unfold classes in H1, H2. rewrite !elem_of_cons, elem_of_nil in H1, H2.
  repeat destruct H1 as [H1|H1]; try done;
    repeat destruct H2 as [H2|H2]; try done; subst;
    intros Heq; vm_compute in Heq; by simplify_eq.
Qed.
End Archive.

Section Splitext.
Implicit Types (s t p stem ext e : string) (c : ascii) (i : Z).

Lemma rfind_from_absent c s i :
  contains c s = false → Py.rfind_from c s i = (-1)%Z.
Proof.
  revert i. induction s as [|a s IH]; intros i H; [done|].
  simpl in H. apply orb_false_iff in H as [Ha Hs].
  simpl. by rewrite (IH _ Hs), Ha.
Qed.

Lemma rfind_from_last c stem e i :
  (0 ≤ i)%Z →
  contains c e = false →
  Py.rfind_from c (stem +:+ String c e) i
  = (i + Z.of_nat (String.length stem))%Z.
Proof.
  revert i. induction stem as [|a stem IH]; intros i Hi He.
  - simpl. rewrite (rfind_from_absent c e _ He), Ascii.eqb_refl. simpl. lia.
  - change (String a stem +:+ String c e)
      with (String a (stem +:+ String c e)).
    simpl. rewrite IH by (done || lia).
    destruct (Z.leb_spec 0 (i + 1 + Z.of_nat (String.length stem))); lia.
Qed.

Lemma substring_app_l s t :
  String.substring 0 (String.length s) (s +:+ t) = s.
Proof.
  induction s as [|a s IH]; simpl; [by destruct t|]. by rewrite IH.
Qed.

Lemma some_other_substring c s (i n : nat) :
  Py.some_other c s = false →
  Py.some_other c (String.substring i n s) = false.
Proof.
  revert i n. induction s as [|a s IH]; intros i n H.
  - by destruct i, n.
  - simpl in H. apply orb_false_iff in H as [Ha Hs].
    destruct i, n; simpl; try done.
    + by rewrite Ha, (IH 0%nat n).
    + by apply IH.
    + by apply IH.
Qed.

(** [splitext] on a plain name made of a stem and a dotted extension. *)
Lemma splitext_stem stem e :
  contains "/" stem = false → contains "/" e = false →
  contains "." e = false →
  Py.splitext (stem +:+ String "." e)
  = if Py.some_other "." stem then (stem, String "." e)
    else (stem +:+ String "." e, "").
Proof.
  intros Hstem He Hdot. unfold Py.splitext, Py.rfind.
  rewrite (rfind_from_absent "/"), (rfind_from_last "." stem e 0)
    by (done || lia || (rewrite contains_app; simpl; by rewrite Hstem, He)).
  assert ((-1 <? 0 + Z.of_nat (String.length stem))%Z = true) as ->
    by (apply Z.ltb_lt; lia).
  unfold Py.slice. simpl andb.
  replace (Z.to_nat (-1 + 1)) with 0%nat by lia.
  replace (Z.to_nat (0 + Z.of_nat (String.length stem) - (-1 + 1)))
    with (String.length stem) by lia.
  rewrite substring_app_l.
  destruct (Py.some_other "." stem); [|done].
  replace (Z.to_nat 0) with 0%nat by lia.
  replace (Z.to_nat (0 + Z.of_nat (String.length stem) - 0))
    with (String.length stem) by lia.
  rewrite substring_app_l. f_equal.
  replace (Z.to_nat (0 + Z.of_nat (String.length stem)))
    with (String.length stem) by lia.
  replace (Z.to_nat (Z.of_nat (String.length (stem +:+ String "." e))
                     - (0 + Z.of_nat (String.length stem))))
    with (String.length (String "." e))
    by (rewrite string_length_app; lia).
  apply substring_app_r.
Qed.
End Splitext.

(** ** Lower case *)

Section Lower.
Implicit Types (s t stem ext : string).

Lemma lower_app s t : Py.lower (s +:+ t) = Py.lower s +:+ Py.lower t.
Proof. induction s as [|a s IH]; simpl; [done|]. by rewrite IH. Qed.

Lemma lower_ascii_dot a : Py.lower_ascii a = "."%char → a = "."%char.
Proof. destruct a as [[] [] [] [] [] [] [] []]; vm_compute; congruence. Qed.

Lemma lower_ascii_fixed c a :
  Py.lower_ascii c = c → Ascii.eqb a c = true →
  Ascii.eqb (Py.lower_ascii a) c = true.
Proof. intros Hc ->%Ascii.eqb_eq. rewrite Hc. apply Ascii.eqb_refl. Qed.

Lemma contains_lower c s :
  Py.lower_ascii c = c →
  contains c (Py.lower s) = false → contains c s = false.
Proof.
  intros Hc. induction s as [|a s IH]; simpl; [done|].
  intros [Ha Hs]%orb_false_iff. rewrite (IH Hs), orb_false_r.
  destruct (Ascii.eqb a c) eqn:Heq; [|done].
  by rewrite (lower_ascii_fixed c a Hc Heq) in Ha.
Qed.

(** A name whose last characters read [.csv] in any mix of case passes the
    extension filter, and its extension is a dot followed by characters
    that are neither dots nor separators. *)
Lemma csv_extension ext :
  Py.lower ext = ".csv" →
  ∃ e, ext = String "." e ∧
       contains "/" e = false ∧ contains "." e = false.
Proof.
  destruct ext as [|a e]; [done|]. simpl. intros [= Ha He].
  apply lower_ascii_dot in Ha as ->. exists e. split; [done|].
  split; apply contains_lower; try done; by rewrite He.
Qed.

Lemma accepts_csv stem ext :
  Py.lower ext = ".csv" →
  Py.endswith (Py.lower (stem +:+ ext)) ".csv" = true.
Proof.
  intros H. apply endswith_spec. exists (Py.lower stem).
  by rewrite lower_app, H.
Qed.

Lemma splitext_csv stem ext :
  Py.lower ext = ".csv" →
  contains "/" stem = false →
  Py.splitext (stem +:+ ext)
  = if Py.some_other "." stem then (stem, ext) else (stem +:+ ext, "").
Proof.
  intros (e & -> & Hsep & Hdot)%csv_extension Hstem.
  by apply splitext_stem.
Qed.
End Lower.

(** ** The further properties *)

(** X1.  The seven bands tile the span from 20 Hz up to, not including,
    12000 Hz: a frequency lies in that span exactly when some band contains
    it, and no frequency lies in two bands.  Each sample inside the span
    therefore enters exactly one band mean. *)
Theorem X1_bands_tile_the_span (f : Qc) :
  (Qc_of_Z 20 ≤ f ∧ f < Qc_of_Z 12000 ↔
   ∃ band low high, (band, (low, high)) ∈ bands ∧ low ≤ f ∧ f < high) ∧
  (∀ band1 low1 high1 band2 low2 high2,
     (band1, (low1, high1)) ∈ bands →
     (band2, (low2, high2)) ∈ bands →
     low1 ≤ f ∧ f < high1 →
     low2 ≤ f ∧ f < high2 →
     band1 = band2 ∧ low1 = low2 ∧ high1 = high2).
Proof.
  split; [split|].
  - intros H. by apply band_covers.
  - intros (band & low & high & Hband & Hin).
    by apply (bands_in_range band low high).
  - intros band1 low1 high1 band2 low2 high2. apply band_unique.
Qed.

(** X2.  Whatever the curve, the dictionary [band_means] holds exactly the
    seven band names as keys: the seven look-ups of the region combiner
    always find their key, and no other key is present. *)
Theorem X2_band_means_has_the_seven_keys (freqs levels : list Qc) :
  dom (band_means freqs levels) = list_to_set bands.*1 ∧
  size (band_means freqs levels) = 7%nat ∧
  (∀ key, is_Some (band_means freqs levels !! key) ↔ key ∈ bands.*1) ∧
  (∀ key, key ∉ bands.*1 → band_means freqs levels !! key = None).
Proof.
  split; [apply band_means_dom|]. split.
  - rewrite <- size_dom, band_means_dom. reflexivity.
  - split; [apply band_means_keys|]. intros key Hkey.
    apply eq_None_not_Some. by rewrite band_means_keys.
Qed.

(** X3.  For a table whose columns have the same number of rows and that
    has at least two columns, every band mask has exactly one entry per
    normalised level, so the boolean indexing [spl_norm[mask]] is
    well-formed, and it selects as many levels as the mask has true
    entries. *)
Theorem X3_masks_fit_the_levels (df : DataFrame) (low high : Qc) :
  well_formed df →
  (2 ≤ shape1 df)%nat →
  let freqs := column df 0 in
  let levels := spl_norm (column df 1) in
  length (mask low high freqs) = length levels ∧
  length (Np.select levels (mask low high freqs))
  = length (filter (λ b, b = true) (mask low high freqs)).
Proof.
  intros Hwf Hcols freqs levels.
  assert (length (mask low high freqs) = length levels) as Hlen.
  { rewrite mask_length. by apply columns_same_length. }
  split; [done|]. by apply select_length.
Qed.

Lemma X3_witness :
  let df := {| columns := [ [Qc_of_Z 30; Qc_of_Z 100];
                            [Qc_of_Z 1; Qc_of_Z 5] ] |} in
  (2 ≤ shape1 df)%nat ∧
  length (mask (Qc_of_Z 20) (Qc_of_Z 60) (column df 0))
  = length (spl_norm (column df 1)).
Proof.
  split; [exact (le_n 2)|].
  apply (X3_masks_fit_the_levels
           {| columns := [ [Qc_of_Z 30; Qc_of_Z 100];
                           [Qc_of_Z 1; Qc_of_Z 5] ] |}
           (Qc_of_Z 20) (Qc_of_Z 60)).
  - intros c1 c2 H1 H2. simpl in H1, H2.
    apply elem_of_cons in H1 as [->|H1];
      [|apply elem_of_cons in H1 as [->|H1]; [|by apply elem_of_nil in H1]];
    (apply elem_of_cons in H2 as [->|H2];
      [|apply elem_of_cons in H2 as [->|H2]; [|by apply elem_of_nil in H2]]);
    reflexivity.
  - exact (le_n 2).
Defined.

(** X10.  The rules treat Bass and Treble alike: exchanging the two region
    means turns [Bright] into [Warm] and [Warm] into [Bright], and leaves
    [V-shape] and [Neutral] as they are. *)
Theorem X10_bass_treble_mirror (thr : Qc) (bass mid treble : option Qc) :
  label thr treble mid bass = mirror (label thr bass mid treble) ∧
  (label thr bass mid treble = "Bright" ↔
   label thr treble mid bass = "Warm") ∧
  (label thr bass mid treble = "V-shape" ↔
   label thr treble mid bass = "V-shape") ∧
  (label thr bass mid treble = "Neutral" ↔
   label thr treble mid bass = "Neutral").
Proof.
  pose proof (label_mirror thr bass mid treble) as H.
  pose proof (label_classes thr bass mid treble) as Hcls.
  split; [done|]. rewrite H. unfold classes in Hcls.
  rewrite !elem_of_cons, elem_of_nil in Hcls.
  destruct Hcls as [->|[->|[->|[->|[]]]]]; by vm_compute.
Qed.

(** X11.  Raising the threshold only moves labels towards [Neutral]: a
    curve that is [Neutral] stays so, a [Bright] or [Warm] one keeps its
    label or becomes [Neutral], and a curve that is [V-shape] at the higher
    threshold is [V-shape] at the lower one. *)
Theorem X11_threshold_is_monotone
    (thr thr' : Qc) (bass mid treble : option Qc) :
  thr ≤ thr' →
  let l := label thr bass mid treble in
  let l' := label thr' bass mid treble in
  (l' = "V-shape" → l = "V-shape") ∧
  (l = "Neutral" → l' = "Neutral") ∧
  (l = "Bright" → l' = "Bright" ∨ l' = "Neutral") ∧
  (l = "Warm" → l' = "Warm" ∨ l' = "Neutral").
Proof.
  intros Hle. unfold label.
  destruct (diffs bass mid treble) as [[bd td]|]; cbv zeta.
  - by apply rules_threshold.
  - split; [done|]. split; [done|]. split; intros; by right.
Qed.

Lemma X11_witness :
  threshold ≤ Qc_of_Z 6 ∧
  (label threshold (Some (Qc_of_Z 0)) (Some (Qc_of_Z 0)) (Some (Qc_of_Z 4))
   = "Bright" →
   label (Qc_of_Z 6) (Some (Qc_of_Z 0)) (Some (Qc_of_Z 0)) (Some (Qc_of_Z 4))
   = "Bright" ∨
   label (Qc_of_Z 6) (Some (Qc_of_Z 0)) (Some (Qc_of_Z 0)) (Some (Qc_of_Z 4))
   = "Neutral").
Proof.
  split; [by apply (bool_decide_unpack _)|].
  apply (X11_threshold_is_monotone threshold (Qc_of_Z 6)
           (Some (Qc_of_Z 0)) (Some (Qc_of_Z 0)) (Some (Qc_of_Z 4))).
  by apply (bool_decide_unpack _).
Defined.

(** X12.  Every write of an accepted directory entry lands directly inside
    a folder created before the loop: the picture in the image folder of
    the curve's class, named after the base name of the entry, and the
    copy, read from the input directory, in the CSV folder of the same
    class under the entry's own name.  (A directory entry holds no path
    separator.) *)
Theorem X12_writes_land_in_created_folders
    (read_csv : string → DataFrame) (filename : string) :
  contains "/" filename = false →
  ¬ skipped read_csv filename →
  ∃ label img_dir csv_dir,
    label ∈ classes ∧
    img_dir = Py.path_join output_img_dir [label] ∧
    csv_dir = Py.path_join output_csv_dir [label] ∧
    img_dir ∈ created_dirs ∧ csv_dir ∈ created_dirs ∧
    process_file read_csv filename =
      [ savefig (img_dir +:+ "/" +:+ (Py.splitext filename).1 +:+ ".png")
          (column (read_csv (input_dir +:+ "/" +:+ filename)) 0)
          (spl_norm (column (read_csv (input_dir +:+ "/" +:+ filename)) 1));
        copy2 (input_dir +:+ "/" +:+ filename)
              (csv_dir +:+ "/" +:+ filename) ].
Proof. apply process_file_paths. Qed.

Lemma X12_witness :
  let read_csv := λ _ : string, {| columns := [[]; []] |} in
  contains "/" "empty.csv" = false ∧
  ∃ label img_dir csv_dir,
    label ∈ classes ∧
    img_dir = Py.path_join output_img_dir [label] ∧
    csv_dir = Py.path_join output_csv_dir [label] ∧
    img_dir ∈ created_dirs ∧ csv_dir ∈ created_dirs ∧
    process_file read_csv "empty.csv" =
      [ savefig (img_dir +:+ "/" +:+ (Py.splitext "empty.csv").1 +:+ ".png")
          (column (read_csv (input_dir +:+ "/" +:+ "empty.csv")) 0)
          (spl_norm (column (read_csv (input_dir +:+ "/" +:+ "empty.csv")) 1));
        copy2 (input_dir +:+ "/" +:+ "empty.csv")
              (csv_dir +:+ "/" +:+ "empty.csv") ].
Proof.
  split; [reflexivity|].
  apply (X12_writes_land_in_created_folders
           (λ _, {| columns := [[]; []] |}) "empty.csv"); [reflexivity|].
  unfold skipped. intros [H|H]; [discriminate H|].
  exact (Nat.lt_irrefl 2 H).
Defined.

(** X13.  Archived copies never overwrite one another: two accepted
    directory entries whose copies have the same destination are the same
    entry. *)
Theorem X13_copies_never_collide
    (read_csv : string → DataFrame) (filename1 filename2 : string)
    (src1 src2 dst : string) :
  contains "/" filename1 = false →
  contains "/" filename2 = false →
  copy2 src1 dst ∈ process_file read_csv filename1 →
  copy2 src2 dst ∈ process_file read_csv filename2 →
  filename1 = filename2.
Proof.
  intros Hp1 Hp2 H1 H2.
  destruct (decide (skipped read_csv filename1)) as [Hs1|Ha1].
  { rewrite (process_file_skipped _ _ Hs1) in H1. by apply elem_of_nil in H1. }
  destruct (decide (skipped read_csv filename2)) as [Hs2|Ha2].
  { rewrite (process_file_skipped _ _ Hs2) in H2. by apply elem_of_nil in H2. }
  rewrite (process_file_accepted _ _ Ha1) in H1.
  rewrite (process_file_accepted _ _ Ha2) in H2.
  cbv zeta in H1, H2. rewrite !elem_of_cons, elem_of_nil in H1, H2.
  destruct H1 as [H1|[H1|[]]]; [done|].
  destruct H2 as [H2|[H2|[]]]; [done|].
  injection H1 as _ Hd1. injection H2 as _ Hd2. rewrite Hd1 in Hd2.
  apply csv_dest_inj in Hd2 as [_ ?];
    first [done | apply label_classes].
Qed.

Lemma X13_witness :
  let read_csv := λ _ : string, {| columns := [[]; []] |} in
  copy2 "SuperInEar/empty.csv" "dataset5/csvs/Neutral/empty.csv"
    ∈ process_file read_csv "empty.csv" ∧
  "empty.csv" = "empty.csv".
Proof.
  assert (copy2 "SuperInEar/empty.csv" "dataset5/csvs/Neutral/empty.csv"
            ∈ process_file (λ _, {| columns := [[]; []] |}) "empty.csv") as H.
  { right. left. }
  split; [exact H|].
  exact (X13_copies_never_collide
           (λ _, {| columns := [[]; []] |}) "empty.csv" "empty.csv"
           "SuperInEar/empty.csv" "SuperInEar/empty.csv"
           "dataset5/csvs/Neutral/empty.csv" eq_refl eq_refl H H).
Defined.

(** X14.  A name made of a stem without separator and of an extension that
    reads [.csv] in any mix of case passes the extension filter, and its
    base name is the stem, so the picture is named [stem.png]; unless the
    stem holds nothing but dots (as in the hidden file [.csv]), in which
    case the base name is the whole name. *)
Theorem X14_base_name_is_the_stem (stem ext : string) :
  Py.lower ext = ".csv" →
  contains "/" stem = false →
  Py.endswith (Py.lower (stem +:+ ext)) ".csv" = true ∧
  (Py.some_other "." stem = true →
   Py.splitext (stem +:+ ext) = (stem, ext)) ∧
  (Py.some_other "." stem = false →
   Py.splitext (stem +:+ ext) = (stem +:+ ext, "")).
Proof.
  intros Hext Hstem. split; [by apply accepts_csv|].
  rewrite (splitext_csv stem ext Hext Hstem).
  split; by intros ->.
Qed.

Lemma X14_witness :
  Py.lower ".CsV" = ".csv" ∧ contains "/" "er4.v2" = false ∧
  Py.splitext "er4.v2.CsV" = ("er4.v2", ".CsV").
Proof.
  split; [reflexivity|]. split; [reflexivity|].
  apply (X14_base_name_is_the_stem "er4.v2" ".CsV"); reflexivity.
Defined.



